(** * executor_wasm: the JavaScript/WebAssembly boundary of the executor

    The repository's source is the generated declaration file
    [executor-wasm/pkg/executor_wasm.d.ts].  Module [Decl] is that file,
    declaration by declaration, over a small syntax of TypeScript types,
    together with the rules of the TypeScript checker the file relies on
    (assignability into a union, calls with optional parameters, writes
    to readonly members).  Module [Spec] holds the surface of the handle
    as the specification lists it.  Module [Glue] is a model of the loader
    behind the declarations, whose JavaScript body is not among the
    sources. *)

From Stdlib Require Import String List Bool Arith Lia.
Import ListNotations.
Open Scope string_scope.
Open Scope list_scope.

Module Decl.

(** ** Syntax of the types that occur in the file *)

(** [TRef] names a type that is declared elsewhere (the DOM library, the
    [WebAssembly] namespace) or by this file ([InitInput], [InitOutput],
    [SyncInitInput]); [A | B | C] is [TUnion (TUnion A B) C]. *)
Inductive ty : Type :=
| TNumber
| TVoid
| TRef (name : string)
| TUnion (l r : ty)
| TPromise (t : ty).

(** A parameter [name: T] or [name?: T]. *)
Record param : Type := Param
  { pname : string; optional : bool; ptype : ty }.

(** [(p1, ..., pn) => ret], and the signature of a declared function. *)
Record fn_sig : Type := Sig
  { params : list param; ret : ty }.

(** The type of an interface member: a value type or a function type. *)
Inductive member_ty : Type :=
| MVal (t : ty)
| MFun (s : fn_sig).

(** An interface member [readonly? name: T]. *)
Record field : Type := Field
  { fname : string; readonly : bool; ftype : member_ty }.

(** A top-level declaration of the file. *)
Inductive decl : Type :=
| ExportFunction (name : string) (is_default : bool) (s : fn_sig)
| ExportType (name : string) (t : ty)
| ExportInterface (name : string) (members : list field).

(** ** The declarations, in the order of the file *)

Definition num (n : string) : param := Param n false TNumber.

(** [export function main(): void;] *)
Definition main : fn_sig := Sig [] TVoid.

(** [export type InitInput =
      RequestInfo | URL | Response | BufferSource | WebAssembly.Module;] *)
Definition InitInput : ty :=
  TUnion (TUnion (TUnion (TUnion (TRef "RequestInfo") (TRef "URL"))
                         (TRef "Response"))
                 (TRef "BufferSource"))
         (TRef "WebAssembly.Module").

(** [export interface InitOutput { ... }] *)
Definition InitOutput : list field :=
  [ Field "memory" true (MVal (TRef "WebAssembly.Memory"));
    Field "main" true (MFun (Sig [] TVoid));
    Field "__wbindgen_malloc" true
      (MFun (Sig [num "a"; num "b"] TNumber));
    Field "__wbindgen_realloc" true
      (MFun (Sig [num "a"; num "b"; num "c"; num "d"] TNumber));
    Field "__wbindgen_export_2" true (MVal (TRef "WebAssembly.Table"));
    Field "wasm_bindgen__convert__closures__invoke1_mut__h101dba3788d44583"
      true (MFun (Sig [num "a"; num "b"; num "c"] TVoid));
    Field "wasm_bindgen__convert__closures__invoke0_mut__h1c51a97846d81157"
      true (MFun (Sig [num "a"; num "b"] TVoid));
    Field "wasm_bindgen__convert__closures__invoke2_mut__ha1996bae5900be0d"
      true (MFun (Sig [num "a"; num "b"; num "c"; num "d"] TVoid));
    Field "wasm_bindgen__convert__closures__invoke0_mut__h004db82e21000bc1"
      true (MFun (Sig [num "a"; num "b"] TVoid));
    Field "wasm_bindgen__convert__closures__invoke1_mut__h1b4c66a40f743170"
      true (MFun (Sig [num "a"; num "b"; num "c"] TVoid));
    Field "wasm_bindgen__convert__closures__invoke0_mut__hd470efaaecda53de"
      true (MFun (Sig [num "a"; num "b"] TVoid));
    Field "_dyn_core__ops__function__FnMut__A____Output___R_as_wasm_bindgen__closure__WasmClosure___describe__invoke__he553b55b3d103bf8"
      true (MFun (Sig [num "a"; num "b"; num "c"] TVoid));
    Field "__wbindgen_free" true
      (MFun (Sig [num "a"; num "b"; num "c"] TVoid));
    Field "__wbindgen_exn_store" true (MFun (Sig [num "a"] TVoid)) ].

(** [export type SyncInitInput = BufferSource | WebAssembly.Module;] *)
Definition SyncInitInput : ty :=
  TUnion (TRef "BufferSource") (TRef "WebAssembly.Module").

(** [export function initSync(module: SyncInitInput): InitOutput;] *)
Definition initSync : fn_sig :=
  Sig [Param "module" false (TRef "SyncInitInput")] (TRef "InitOutput").

(** [export default function __wbg_init
       (module_or_path?: InitInput | Promise<InitInput>): Promise<InitOutput>;] *)
Definition __wbg_init : fn_sig :=
  Sig [Param "module_or_path" true
         (TUnion (TRef "InitInput") (TPromise (TRef "InitInput")))]
      (TPromise (TRef "InitOutput")).

Definition executor_wasm : list decl :=
  [ ExportFunction "main" false main;
    ExportType "InitInput" InitInput;
    ExportInterface "InitOutput" InitOutput;
    ExportType "SyncInitInput" SyncInitInput;
    ExportFunction "initSync" false initSync;
    ExportFunction "__wbg_init" true __wbg_init ].

(** ** Looking declarations up *)

Fixpoint type_alias_in (ds : list decl) (n : string) : option ty :=
  match ds with
  | [] => None
  | ExportType m t :: ds' => if m =? n then Some t else type_alias_in ds' n
  | _ :: ds' => type_alias_in ds' n
  end.

Fixpoint interface_in (ds : list decl) (n : string) : option (list field) :=
  match ds with
  | [] => None
  | ExportInterface m fs :: ds' =>
      if m =? n then Some fs else interface_in ds' n
  | _ :: ds' => interface_in ds' n
  end.

Fixpoint function_in (ds : list decl) (n : string) : option fn_sig :=
  match ds with
  | [] => None
  | ExportFunction m _ s :: ds' =>
      if m =? n then Some s else function_in ds' n
  | _ :: ds' => function_in ds' n
  end.

Fixpoint default_export_in (ds : list decl) : option (string * fn_sig) :=
  match ds with
  | [] => None
  | ExportFunction m true s :: _ => Some (m, s)
  | _ :: ds' => default_export_in ds'
  end.

Definition type_alias := type_alias_in executor_wasm.
Definition interface := interface_in executor_wasm.
Definition function := function_in executor_wasm.
Definition default_export := default_export_in executor_wasm.

Fixpoint field_type (fs : list field) (n : string) : option member_ty :=
  match fs with
  | [] => None
  | f :: fs' => if fname f =? n then Some (ftype f) else field_type fs' n
  end.

(** ** Assignability *)

(** [expand k t] replaces the aliases declared by the file by their
    bodies, at most [k] deep. *)
Fixpoint expand (fuel : nat) : ty -> ty :=
  match fuel with
  | O => fun t => t
  | S k =>
      fix go (t : ty) : ty :=
        match t with
        | TRef n =>
            match type_alias n with
            | Some u => expand k u
            | None => t
            end
        | TUnion a b => TUnion (go a) (go b)
        | TPromise a => TPromise (go a)
        | _ => t
        end
  end.

Definition resolve : ty -> ty := expand (length executor_wasm).

(** The constituents of a union. *)
Fixpoint members (t : ty) : list ty :=
  match t with
  | TUnion a b => members a ++ members b
  | _ => [t]
  end.

Fixpoint ty_eqb (a b : ty) : bool :=
  match a, b with
  | TNumber, TNumber => true
  | TVoid, TVoid => true
  | TRef n, TRef m => n =? m
  | TUnion a1 a2, TUnion b1 b2 => ty_eqb a1 b1 && ty_eqb a2 b2
  | TPromise a', TPromise b' => ty_eqb a' b'
  | _, _ => false
  end.

Definition is_promise (t : ty) : bool :=
  match t with TPromise _ => true | _ => false end.

(** [sub s t]: a value of type [s] may be used where [t] is expected.
    A union on the left needs every constituent accepted; a constituent
    is accepted when the target lists it; [Promise] is covariant.  Named
    types declared outside the file are compared by name, whereas the
    checker compares them by what their libraries declare.  So [true] is
    an acceptance of the checker, and [false] says nothing about a type
    declared outside the file: the statements below rest on acceptances,
    on the number of arguments and on the declarations themselves. *)
Fixpoint sub (s t : ty) {struct s} : bool :=
  match s with
  | TUnion a b => sub a t && sub b t
  | TPromise a =>
      existsb (fun m => match m with TPromise b => sub a b | _ => false end)
              (members t)
  | _ => existsb (ty_eqb s) (members t)
  end.

Definition subtype (s t : ty) : bool := sub (resolve s) (resolve t).

(** ** Calls *)

(** Arguments are matched to parameters from the left; a parameter may be
    left without argument only when it is optional. *)
Fixpoint check_args (ps : list param) (args : list ty) : bool :=
  match ps, args with
  | [], [] => true
  | [], _ :: _ => false
  | p :: ps', [] => optional p && check_args ps' []
  | p :: ps', a :: args' => subtype a (ptype p) && check_args ps' args'
  end.

(** The type of the call [f(args)], when it type-checks. *)
Definition call_type (f : fn_sig) (args : list ty) : option ty :=
  if check_args (params f) args then Some (ret f) else None.

(** The named types the two input unions are made of. *)
Definition sync_shapes : list ty :=
  [TRef "BufferSource"; TRef "WebAssembly.Module"].

Definition async_shapes : list ty :=
  [TRef "RequestInfo"; TRef "URL"; TRef "Response";
   TRef "BufferSource"; TRef "WebAssembly.Module"].

(** ** Operations on a value of an interface type *)

(** [h.n = v] type-checks only when [n] is a member of the interface that
    is not declared [readonly]. *)
Definition assignable (fs : list field) (n : string) : bool :=
  existsb (fun f => (fname f =? n) && negb (readonly f)) fs.

Section Object.

Variable V : Type.

(** The property bindings of an object, in declaration order. *)
Definition object : Type := list (string * V).

(** What a client can do with an object through its interface: read a
    member, call a member, assign to a member. *)
Inductive op : Type :=
| Get (n : string)
| Call (n : string) (args : list V)
| Assign (n : string) (v : V).

Definition op_ok (fs : list field) (o : op) : bool :=
  match o with
  | Get n => match field_type fs n with Some _ => true | None => false end
  | Call n args =>
      match field_type fs n with
      | Some (MFun s) => Nat.eqb (length (params s)) (length args)
      | _ => false
      end
  | Assign n _ => assignable fs n
  end.

Fixpoint rebind (n : string) (v : V) (o : object) : object :=
  match o with
  | [] => []
  | (m, w) :: o' =>
      if m =? n then (m, v) :: o' else (m, w) :: rebind n v o'
  end.

(** The bindings after an operation: only an assignment rebinds. *)
Definition exec (o : object) (p : op) : object :=
  match p with
  | Assign n v => rebind n v o
  | _ => o
  end.

End Object.

Arguments Get {V} n.
Arguments Call {V} n args.
Arguments Assign {V} n v.


(** A parameter [name: number], without [?]. *)
Definition required_number (p : param) : bool :=
  match ptype p with
  | TNumber => negb (optional p)
  | _ => false
  end.

(** A function type over numbers alone: every parameter is a required
    number and the result is a number or nothing. *)
Definition numeric_sig (s : fn_sig) : bool :=
  forallb required_number (params s)
  && match ret s with TNumber | TVoid => true | _ => false end.

End Decl.

Module Spec.

Import Decl.

(** The surface of the handle as the data model of the specification
    lists it, item by item: the linear memory region, the zero-argument
    entry point, the allocator pair, the table of indirect function
    references, the deallocation function and the exception-storage
    slot. *)
Definition listed_surface : list (string * member_ty) :=
  [ ("memory", MVal (TRef "WebAssembly.Memory"));
    ("main", MFun (Sig [] TVoid));
    ("__wbindgen_malloc", MFun (Sig [num "a"; num "b"] TNumber));
    ("__wbindgen_realloc",
      MFun (Sig [num "a"; num "b"; num "c"; num "d"] TNumber));
    ("__wbindgen_export_2", MVal (TRef "WebAssembly.Table"));
    ("__wbindgen_free", MFun (Sig [num "a"; num "b"; num "c"] TVoid));
    ("__wbindgen_exn_store", MFun (Sig [num "a"] TVoid)) ].

(** What an interface exposes: the names of its members with their types. *)
Definition surface (fs : list field) : list (string * member_ty) :=
  map (fun f => (fname f, ftype f)) fs.

(** The interface exposes exactly the listed members. *)
Definition exposes_exactly
  (fs : list field) (l : list (string * member_ty)) : Prop :=
  forall e, In e (surface fs) <-> In e l.

(** A fixed-arity invoke function: its name says [invoke], it takes two to
    four numbers and returns nothing. *)
Definition is_number_param (p : param) : bool :=
  match ptype p with TNumber => negb (optional p) | _ => false end.

Definition is_trampoline (e : string * member_ty) : bool :=
  match snd e with
  | MFun s =>
      match index 0 "invoke" (fst e), ret s with
      | Some _, TVoid =>
          forallb is_number_param (params s)
          && Nat.leb 2 (length (params s))
          && Nat.leb (length (params s)) 4
      | _, _ => false
      end
  | MVal _ => false
  end.

End Spec.

Module Glue.

(** ** The host *)

Definition bytes : Type := list Byte.byte.

(** A response-like object; the loader reads its body. *)
Record Response : Type := { body : bytes }.

(** What the loader asks of the host runtime.  [compile] fails on bytes
    that are not a valid compiled module, [instantiate] fails for
    host-resource reasons, [fetch] fails on an unreachable location.
    A [Handle] stands for what an instance exposes; the identity of
    instances is not modelled. *)
Record Host : Type :=
  { WasmModule : Type;
    Handle : Type;
    compile : bytes -> option WasmModule;
    instantiate : WasmModule -> option Handle;
    fetch : string -> option Response;
    default_location : string }.

(** ** The inputs, as the declaration file types them *)

(** [SyncInitInput = BufferSource | WebAssembly.Module] *)
Inductive SyncInitInput (H : Host) : Type :=
| SyncBufferSource (b : bytes)
| SyncModule (m : WasmModule H).

(** [InitInput = RequestInfo | URL | Response | BufferSource |
    WebAssembly.Module]; a request descriptor and a URL are given by the
    location they name. *)
Inductive InitInput (H : Host) : Type :=
| OfRequestInfo (r : string)
| OfURL (u : string)
| OfResponse (r : Response)
| OfBufferSource (b : bytes)
| OfModule (m : WasmModule H).

Arguments SyncBufferSource {H} b.
Arguments SyncModule {H} m.
Arguments OfRequestInfo {H} r.
Arguments OfURL {H} u.
Arguments OfResponse {H} r.
Arguments OfBufferSource {H} b.
Arguments OfModule {H} m.

(** The inclusion of the synchronous inputs in the asynchronous ones. *)
Definition as_init_input {H : Host} (s : SyncInitInput H) : InitInput H :=
  match s with
  | SyncBufferSource b => OfBufferSource b
  | SyncModule m => OfModule m
  end.

(** The named type of the declaration file an input belongs to. *)
Definition sync_shape {H : Host} (s : SyncInitInput H) : Decl.ty :=
  match s with
  | SyncBufferSource _ => Decl.TRef "BufferSource"
  | SyncModule _ => Decl.TRef "WebAssembly.Module"
  end.

Definition shape {H : Host} (i : InitInput H) : Decl.ty :=
  match i with
  | OfRequestInfo _ => Decl.TRef "RequestInfo"
  | OfURL _ => Decl.TRef "URL"
  | OfResponse _ => Decl.TRef "Response"
  | OfBufferSource _ => Decl.TRef "BufferSource"
  | OfModule _ => Decl.TRef "WebAssembly.Module"
  end.

(** How a pending value handed to the loader ends. *)
Inductive Settlement (A : Type) : Type :=
| Settles (a : A)
| Rejects
| NeverSettles.

Arguments Settles {A} a.
Arguments Rejects {A}.
Arguments NeverSettles {A}.

(** [InitInput | Promise<InitInput>] *)
Inductive InitArg (H : Host) : Type :=
| Direct (i : InitInput H)
| Promised (p : Settlement (InitInput H)).

Arguments Direct {H} i.
Arguments Promised {H} p.

(** ** Results *)

Inductive InitError : Type :=
| MalformedModule
| InstantiationFailed
| FetchFailed
| InputRejected.

(** What a synchronous call does: it returns or it throws. *)
Inductive outcome (H : Host) : Type :=
| Returned (h : Handle H)
| Threw (e : InitError).

Arguments Returned {H} h.
Arguments Threw {H} e.

(** The state of the promise the asynchronous initializer returns,
    with the suspension points of the fetch, compile, instantiate
    sequence. *)
Inductive task (H : Host) : Type :=
| AwaitingInput (p : Settlement (InitInput H))
| Requesting (loc : string)
| Compiling (b : bytes)
| Instantiating (m : WasmModule H)
| Fulfilled (h : Handle H)
| Rejected (e : InitError).

Arguments AwaitingInput {H} p.
Arguments Requesting {H} loc.
Arguments Compiling {H} b.
Arguments Instantiating {H} m.
Arguments Fulfilled {H} h.
Arguments Rejected {H} e.

(** ** The synchronous initializer *)

(** Modelled from the spec: the instantiation step of the generated
    glue, which is not part of the sources; it fails when the host cannot
    instantiate the module. *)
Definition instantiate_module (H : Host) (m : WasmModule H) : outcome H :=
  match instantiate H m with
  | Some h => Returned h
  | None => Threw InstantiationFailed
  end.

(** Modelled from the spec: the body of [initSync] is in the generated
    JavaScript glue, which is not part of the sources; only its
    declaration and comment are.  Contract 4.1: the input is a raw binary
    buffer or an already-compiled module, the output is the handle, and
    the call fails if the bytes are not a valid compiled module or if
    instantiation fails for host-resource reasons. *)
Definition initSync (H : Host) (module : SyncInitInput H) : outcome H :=
  match module with
  | SyncBufferSource b =>
      match compile H b with
      | Some m => instantiate_module H m
      | None => Threw MalformedModule
      end
  | SyncModule m => instantiate_module H m
  end.

(** ** The asynchronous initializer *)

(** Modelled from the spec: the dispatch of [__wbg_init] on its input is
    in the generated glue, which is not part of the sources.  The comment
    of the declaration: a [RequestInfo] or [URL] makes a request, and
    everything else is instantiated directly. *)
Definition dispatch {H : Host} (i : InitInput H) : task H :=
  match i with
  | OfRequestInfo r => Requesting r
  | OfURL u => Requesting u
  | OfResponse r => Compiling (body r)
  | OfBufferSource b => Compiling b
  | OfModule m => Instantiating m
  end.

(** Modelled from the spec: the body of the default export [__wbg_init]
    is in the generated glue, which is not part of the sources.  Contract
    4.1: the input is an instantiation source, a pending value resolving
    to one, or nothing, in which case the loader falls back to a default
    location; the result is a promise of the handle. *)
Definition __wbg_init (H : Host) (module_or_path : option (InitArg H))
  : task H :=
  match module_or_path with
  | None => Requesting (default_location H)
  | Some (Direct i) => dispatch i
  | Some (Promised p) => AwaitingInput p
  end.

(** Modelled from the spec: one turn of the event loop on the promise of
    [__wbg_init], whose body is not part of the sources.  Contract 4.1 and
    section 5: the call suspends at the fetch, compile and instantiate
    steps, and the promise is rejected when the fetch fails, the bytes are
    malformed or instantiation fails. *)
Definition step (H : Host) (t : task H) : task H :=
  match t with
  | AwaitingInput (Settles i) => dispatch i
  | AwaitingInput Rejects => Rejected InputRejected
  | AwaitingInput NeverSettles => t
  | Requesting loc =>
      match fetch H loc with
      | Some r => Compiling (body r)
      | None => Rejected FetchFailed
      end
  | Compiling b =>
      match compile H b with
      | Some m => Instantiating m
      | None => Rejected MalformedModule
      end
  | Instantiating m =>
      match instantiate H m with
      | Some h => Fulfilled h
      | None => Rejected InstantiationFailed
      end
  | Fulfilled _ | Rejected _ => t
  end.

Fixpoint run (H : Host) (n : nat) (t : task H) : task H :=
  match n with
  | O => t
  | S k => run H k (step H t)
  end.

(** The settled promise that corresponds to the outcome of a call. *)
Definition promise_of {H : Host} (o : outcome H) : task H :=
  match o with
  | Returned h => Fulfilled h
  | Threw e => Rejected e
  end.

Definition settled {H : Host} (t : task H) : bool :=
  match t with
  | Fulfilled _ | Rejected _ => true
  | _ => false
  end.

(** ** Sources *)

(** The input the loader ends up working on. *)
Definition input_of (H : Host) (arg : option (InitArg H))
  : option (InitInput H) :=
  match arg with
  | None => Some (OfURL (default_location H))
  | Some (Direct i) => Some i
  | Some (Promised (Settles i)) => Some i
  | Some (Promised _) => None
  end.

(** The location an input names, when it names one. *)
Definition location {H : Host} (i : InitInput H) : option string :=
  match i with
  | OfRequestInfo r => Some r
  | OfURL u => Some u
  | _ => None
  end.

(** The bytes behind an input, when they can be obtained. *)
Definition source_bytes (H : Host) (i : InitInput H) : option bytes :=
  match i with
  | OfRequestInfo r => option_map body (fetch H r)
  | OfURL u => option_map body (fetch H u)
  | OfResponse r => Some (body r)
  | OfBufferSource b => Some b
  | OfModule _ => None
  end.

(** The compiled module behind an input, when there is one. *)
Definition source_module (H : Host) (i : InitInput H)
  : option (WasmModule H) :=
  match i with
  | OfModule m => Some m
  | _ =>
      match source_bytes H i with
      | Some b => compile H b
      | None => None
      end
  end.

(** The three ways a source fails, after contract 4.1 and section 7 of
    the specification: the fetch fails, the bytes are malformed,
    instantiation fails. *)
Inductive fails (H : Host) (i : InitInput H) : InitError -> Prop :=
| fetch_failure loc :
    location i = Some loc -> fetch H loc = None -> fails H i FetchFailed
| malformed_bytes b :
    source_bytes H i = Some b -> compile H b = None ->
    fails H i MalformedModule
| instantiation_failure m :
    source_module H i = Some m -> instantiate H m = None ->
    fails H i InstantiationFailed.

(** An unreachable or failing argument: the input fails, or the pending
    value is itself rejected. *)
Definition unreachable_or_failing
  (H : Host) (arg : option (InitArg H)) (e : InitError) : Prop :=
  (exists i, input_of H arg = Some i /\ fails H i e)
  \/ (arg = Some (Promised Rejects) /\ e = InputRejected).

(** The input stands for the bytes [b]. *)
Definition underlying (H : Host) (i : InitInput H) (b : bytes) : Prop :=
  source_bytes H i = Some b
  \/ exists m, i = OfModule m /\ compile H b = Some m.

(** ** A small host to run the model on *)

Definition wasm_header : bytes :=
  [Byte.x00; Byte.x61; Byte.x73; Byte.x6d;
   Byte.x01; Byte.x00; Byte.x00; Byte.x00].

Fixpoint starts_with (p b : bytes) : bool :=
  match p, b with
  | [], _ => true
  | _ :: _, [] => false
  | x :: p', y :: b' => Byte.eqb x y && starts_with p' b'
  end.

(** Modules are the byte strings that start with the binary header;
    the host has room for modules of at most sixteen bytes; one location
    is reachable. *)
Definition demo_host : Host :=
  {| WasmModule := bytes;
     Handle := list string;
     compile := fun b => if starts_with wasm_header b then Some b else None;
     instantiate := fun m =>
       if Nat.leb (length m) 16
       then Some (map Decl.fname Decl.InitOutput) else None;
     fetch := fun loc =>
       if loc =? "executor_wasm_bg.wasm"
       then Some {| body := wasm_header |} else None;
     default_location := "executor_wasm_bg.wasm" |}.

End Glue.

Module DeclFacts.

Import Decl.

(** ** Assignability: the lemmas the claims share *)

Lemma ty_eqb_eq (a b : ty) : ty_eqb a b = true <-> a = b.
Proof.
  revert b; induction a as [ | | n | a1 IH1 a2 IH2 | a IH]; intros [ | | m | b1 b2 | b];
    simpl; try (split; [discriminate | congruence]); try tauto.
  - rewrite String.eqb_eq. split; congruence.
  - rewrite andb_true_iff, IH1, IH2. split; [intros [-> ->]; reflexivity | ].
    intros E; injection E; auto.
  - rewrite IH. split; congruence.
Qed.


Lemma resolve_promise (a : ty) : resolve (TPromise a) = TPromise (resolve a).
Proof. reflexivity. Qed.

(** Constituents that are not promises are accepted exactly when the
    target lists them. *)
Lemma sub_sound (s t : ty) :
  sub s t = true ->
  forall m, In m (members s) -> is_promise m = false -> In m (members t).
Proof.
  induction s as [ | | n | a IHa b IHb | a IHa]; simpl; intros Hs m Hm Hp.
  - destruct Hm as [<- | []].
    apply existsb_exists in Hs as (x & Hx & E). destruct x; try discriminate; exact Hx.
  - destruct Hm as [<- | []].
    apply existsb_exists in Hs as (x & Hx & E). destruct x; try discriminate; exact Hx.
  - destruct Hm as [<- | []].
    apply existsb_exists in Hs as (x & Hx & E).
    change (ty_eqb (TRef n) x = true) in E. apply ty_eqb_eq in E. subst x; exact Hx.
  - apply andb_true_iff in Hs as [Ha Hb].
    apply in_app_or in Hm as [Hm | Hm]; eauto.
  - destruct Hm as [<- | []]. discriminate.
Qed.

Lemma sub_complete (s t : ty) :
  (forall m, In m (members s) -> is_promise m = false) ->
  incl (members s) (members t) ->
  sub s t = true.
Proof.
  induction s as [ | | n | a IHa b IHb | a IHa]; simpl; intros Hp Hi.
  - apply existsb_exists. exists TNumber. split; [apply Hi; left | ]; reflexivity.
  - apply existsb_exists. exists TVoid. split; [apply Hi; left | ]; reflexivity.
  - apply existsb_exists. exists (TRef n). split; [apply Hi; left; reflexivity | ].
    simpl. apply String.eqb_refl.
  - apply andb_true_iff. split.
    + apply IHa; [intros m Hm; apply Hp, in_or_app; auto | ].
      intros m Hm; apply Hi, in_or_app; auto.
    + apply IHb; [intros m Hm; apply Hp, in_or_app; auto | ].
      intros m Hm; apply Hi, in_or_app; auto.
  - specialize (Hp (TPromise a) (or_introl eq_refl)). discriminate.
Qed.

(** A target without promises accepts only what it lists. *)
Lemma sub_incl (s t : ty) :
  (forall m, In m (members t) -> is_promise m = false) ->
  sub s t = true -> incl (members s) (members t).
Proof.
  intros Ht Hs m Hm.
  destruct (is_promise m) eqn:Hp; [ | eapply sub_sound; eassumption].
  exfalso. revert Hs Hm.
  induction s as [ | | n | a IHa b IHb | a IHa]; simpl; intros Hs Hm;
    try (destruct Hm as [<- | []]; discriminate).
  - apply andb_true_iff in Hs as [Ha Hb].
    apply in_app_or in Hm as [Hm | Hm]; auto.
  - apply existsb_exists in Hs as (x & Hx & E).
    destruct x; try discriminate. specialize (Ht _ Hx). discriminate.
Qed.

(** A larger target accepts more. *)
Lemma sub_weaken (s t t' : ty) :
  sub s t = true -> incl (members t) (members t') -> sub s t' = true.
Proof.
  intros Hs Hi.
  induction s as [ | | n | a IHa b IHb | a IHa]; simpl in *;
    try (apply existsb_exists in Hs as (x & Hx & E);
         apply existsb_exists; exists x; split; [apply Hi | ]; assumption).
  apply andb_true_iff in Hs as [Ha Hb]. apply andb_true_iff; auto.
Qed.

Lemma members_SyncInitInput :
  members (resolve (TRef "SyncInitInput")) = sync_shapes.
Proof. reflexivity. Qed.

Lemma members_InitInput : members (resolve (TRef "InitInput")) = async_shapes.
Proof. reflexivity. Qed.

Lemma members_init_parameter :
  members (resolve (TUnion (TRef "InitInput") (TPromise (TRef "InitInput"))))
  = async_shapes ++ [TPromise (resolve (TRef "InitInput"))].
Proof. reflexivity. Qed.

Lemma no_promise_in (l : list ty) (t : ty) :
  forallb (fun m => negb (is_promise m)) l = true ->
  incl (members t) l ->
  forall m, In m (members t) -> is_promise m = false.
Proof.
  intros Hl Hi m Hm. rewrite forallb_forall in Hl.
  apply negb_true_iff, Hl, Hi, Hm.
Qed.

(** What the comparison by name accepts as the argument of [initSync]. *)
Lemma initSync_accepts (t : ty) :
  call_type initSync [t] = Some (TRef "InitOutput")
  <-> incl (members (resolve t)) sync_shapes.
Proof.
  unfold call_type. cbn [initSync params ret check_args ptype].
  rewrite andb_true_r. unfold subtype. split.
  - intros Hc.
    destruct (sub (resolve t) (resolve (TRef "SyncInitInput"))) eqn:Hs;
      [ | discriminate].
    apply sub_incl in Hs; [exact Hs | ].
    intros m Hm. rewrite members_SyncInitInput in Hm.
    repeat (destruct Hm as [<- | Hm]; [reflexivity | ]). destruct Hm.
  - intros Hi. rewrite sub_complete; [reflexivity | | exact Hi].
    apply (no_promise_in sync_shapes); [reflexivity | exact Hi].
Qed.

(** What the default export accepts as its argument: anything made of the
    five shapes, and a promise of it. *)
Lemma init_accepts (t : ty) :
  incl (members (resolve t)) async_shapes ->
  call_type __wbg_init [t] = Some (TPromise (TRef "InitOutput"))
  /\ call_type __wbg_init [TPromise t] = Some (TPromise (TRef "InitOutput")).
Proof.
  intros Hi.
  assert (Hp : forall m, In m (members (resolve t)) -> is_promise m = false)
    by (apply (no_promise_in async_shapes); [reflexivity | exact Hi]).
  unfold call_type. cbn [__wbg_init params ret check_args ptype].
  rewrite !andb_true_r. unfold subtype. split.
  - rewrite sub_complete; [reflexivity | exact Hp | ].
    rewrite members_init_parameter. intros m Hm. apply in_or_app. left. auto.
  - rewrite resolve_promise. cbn [sub]. rewrite members_init_parameter.
    rewrite existsb_app. cbn [existsb async_shapes]. cbn [orb].
    rewrite sub_complete; [reflexivity | exact Hp | ].
    rewrite members_InitInput. exact Hi.
Qed.

(** ** The claims about the declarations *)



(** C2: the default export [__wbg_init] has one optional parameter of type
    [InitInput | Promise<InitInput>] and result type
    [Promise<InitOutput>].  A call without argument type-checks; so does a
    call on anything made of the five shapes of [InitInput] (request
    descriptor, URL, response, buffer, compiled module) and on a promise
    of it; each of these calls has type [Promise<InitOutput>]. *)
Theorem default_init_returns_promise_of_handle :
  default_export = Some ("__wbg_init", __wbg_init)
  /\ map optional (params __wbg_init) = [true]
  /\ members (resolve (TRef "InitInput")) = async_shapes
  /\ call_type __wbg_init [] = Some (TPromise (TRef "InitOutput"))
  /\ (forall t, (forall m, In m (members (resolve t)) -> In m async_shapes) ->
        call_type __wbg_init [t] = Some (TPromise (TRef "InitOutput"))
        /\ call_type __wbg_init [TPromise t]
           = Some (TPromise (TRef "InitOutput")))
  /\ interface "InitOutput" = Some InitOutput.
Proof.
  do 4 (split; [reflexivity | ]). split; [ | reflexivity].
  intros t Ht. apply init_accepts. exact Ht.
Qed.

Lemma default_init_returns_promise_of_handle_witness :
  call_type __wbg_init [TRef "URL"] = Some (TPromise (TRef "InitOutput"))
  /\ call_type __wbg_init [TPromise (TRef "URL")]
     = Some (TPromise (TRef "InitOutput")).
Proof.
  apply (proj1 (proj2 (proj2 (proj2 (proj2
           default_init_returns_promise_of_handle))))).
  simpl. intros m [<- | []]. auto.
Defined.

(** C8: [main] takes no argument and returns nothing, as the function the
    module exports and as the member [main] of the interface of the
    handle: both have the type [() => void], a call without argument has
    type [void] and a call with an argument does not type-check. *)
Theorem main_takes_nothing_returns_nothing :
  function "main" = Some (Sig [] TVoid)
  /\ interface "InitOutput" = Some InitOutput
  /\ field_type InitOutput "main" = Some (MFun (Sig [] TVoid))
  /\ call_type main [] = Some TVoid
  /\ forall a args, call_type main (a :: args) = None.
Proof. do 4 (split; [reflexivity | ]). intros a args. reflexivity. Qed.

(** C9: every argument [initSync] accepts is accepted by the default
    export: [SyncInitInput] is assignable to [InitInput], whose declared
    constituents are those of [SyncInitInput] preceded by the three
    fetchable ones (request descriptor, URL, response), and the default
    export accepts each of these three. *)
Theorem sync_input_included_in_async_input :
  subtype (TRef "SyncInitInput") (TRef "InitInput") = true
  /\ (forall t r, call_type initSync [t] = Some r ->
        call_type __wbg_init [t] = Some (TPromise r))
  /\ (forall t, In t [TRef "RequestInfo"; TRef "URL"; TRef "Response"] ->
        call_type __wbg_init [t] = Some (TPromise (TRef "InitOutput")))
  /\ members (resolve (TRef "InitInput"))
     = [TRef "RequestInfo"; TRef "URL"; TRef "Response"]
       ++ members (resolve (TRef "SyncInitInput")).
Proof.
  split; [reflexivity | ]. split; [ | split; [ | reflexivity]].
  - intros t r H.
    assert (E : r = TRef "InitOutput").
    { unfold call_type in H. destruct (check_args _ _); [ | discriminate].
      injection H as <-. reflexivity. }
    subst r. apply initSync_accepts in H.
    refine (proj1 (init_accepts t _)).
    intros m Hm. apply H in Hm.
    destruct Hm as [<- | [<- | []]]; simpl; tauto.
  - intros t [<- | [<- | [<- | []]]]; reflexivity.
Qed.

Lemma sync_input_included_in_async_input_witness :
  call_type __wbg_init [TRef "SyncInitInput"]
  = Some (TPromise (TRef "InitOutput")).
Proof.
  apply (proj1 (proj2 sync_input_included_in_async_input)).
  reflexivity.
Defined.

(** ** The interface of the handle *)

Lemma readonly_not_assignable (fs : list field) :
  forallb readonly fs = true -> forall n, assignable fs n = false.
Proof.
  unfold assignable. induction fs as [ | f fs IH]; simpl; intros Hr n.
  - reflexivity.
  - apply andb_true_iff in Hr as [Hf Hfs].
    rewrite Hf, andb_false_r. simpl. apply IH. exact Hfs.
Qed.

(** Operations that type-check against an interface without assignable
    member leave the bindings as they are. *)
Lemma ok_ops_keep_bindings (V : Type) (fs : list field) :
  (forall n, assignable fs n = false) ->
  forall (ops : list (op V)) (h : object V),
    forallb (op_ok V fs) ops = true -> fold_left (exec V) ops h = h.
Proof.
  intros Hfs ops. induction ops as [ | o ops IH]; simpl; intros h Hok.
  - reflexivity.
  - apply andb_true_iff in Hok as [Ho Hops].
    destruct o as [n | n args | n v]; simpl in *; try (apply IH; exact Hops).
    rewrite Hfs in Ho. discriminate.
Qed.

(** C3, as stated, fails: the interface [InitOutput] has members that the
    list of the specification does not contain, such as the closure
    trampoline [wasm_bindgen__convert__closures__invoke1_mut__h101dba3788d44583];
    so the handle does not expose exactly the listed surface. *)
Lemma InitOutput_exposes_more_than_listed :
  In ("wasm_bindgen__convert__closures__invoke1_mut__h101dba3788d44583",
      MFun (Sig [num "a"; num "b"; num "c"] TVoid))
     (Spec.surface InitOutput)
  /\ ~ Spec.exposes_exactly InitOutput Spec.listed_surface.
Proof.
  assert (Hin : In ("wasm_bindgen__convert__closures__invoke1_mut__h101dba3788d44583",
                    MFun (Sig [num "a"; num "b"; num "c"] TVoid))
                   (Spec.surface InitOutput)).
  { simpl. do 5 right. left. reflexivity. }
  split; [exact Hin | ].
  intros Hex. apply Hex in Hin. simpl in Hin.
  repeat (destruct Hin as [Hin | Hin]; [discriminate Hin | ]).
  exact Hin.
Qed.

(** C3, amended: the interface of the handle has every member the
    specification lists, with the listed shape (the memory, the
    zero-argument [main], the allocator of two numbers and the reallocator
    of four, the table, the deallocation function of three numbers, the
    exception store of one number); every other member is a fixed-arity
    invoke function taking two to four numbers and returning nothing, and
    there are seven of them. *)
Theorem handle_surface_is_listed_plus_trampolines :
  interface "InitOutput" = Some InitOutput
  /\ (forall e, In e Spec.listed_surface -> In e (Spec.surface InitOutput))
  /\ (forall e, In e (Spec.surface InitOutput) ->
        In e Spec.listed_surface \/ Spec.is_trampoline e = true)
  /\ (forall e, In e Spec.listed_surface -> Spec.is_trampoline e = false)
  /\ length (filter Spec.is_trampoline (Spec.surface InitOutput)) = 7.
Proof.
  split; [reflexivity | ]. split; [ | split; [ | split; [ | reflexivity]]].
  - intros e He. simpl in He.
    repeat (destruct He as [<- | He]; [simpl; tauto | ]). destruct He.
  - intros e He. simpl in He.
    repeat (destruct He as [<- | He];
            [first [right; reflexivity | left; simpl; tauto] | ]).
    destruct He.
  - intros e He. simpl in He.
    repeat (destruct He as [<- | He]; [reflexivity | ]). destruct He.
Qed.

Lemma handle_surface_is_listed_plus_trampolines_witness :
  In ("memory", MVal (TRef "WebAssembly.Memory")) (Spec.surface InitOutput).
Proof.
  apply (proj1 (proj2 handle_surface_is_listed_plus_trampolines)).
  simpl. auto.
Defined.

(** C10: every member of the interface [InitOutput] is declared
    [readonly]; no assignment to a member of a handle type-checks, and any
    sequence of operations that type-check against the interface leaves
    every binding of the handle as instantiation made it. *)
Theorem handle_exports_are_readonly :
  interface "InitOutput" = Some InitOutput
  /\ forallb readonly InitOutput = true
  /\ (forall n, assignable InitOutput n = false)
  /\ (forall (V : Type) (ops : list (op V)) (h : object V),
        forallb (op_ok V InitOutput) ops = true ->
        fold_left (exec V) ops h = h).
Proof.
  assert (Hr : forallb readonly InitOutput = true) by reflexivity.
  split; [reflexivity | ]. split; [exact Hr | ]. split.
  - apply readonly_not_assignable. exact Hr.
  - intros V. apply ok_ops_keep_bindings.
    apply readonly_not_assignable. exact Hr.
Qed.

Lemma handle_exports_are_readonly_witness :
  fold_left (exec nat) [Get "memory"; Call "main" []; Call "__wbindgen_exn_store" [7]]
            [("memory", 0); ("main", 1); ("__wbindgen_exn_store", 2)]
  = [("memory", 0); ("main", 1); ("__wbindgen_exn_store", 2)].
Proof.
  apply (proj2 (proj2 (proj2 handle_exports_are_readonly))).
  reflexivity.
Defined.

End DeclFacts.

Module GlueFacts.

Import Glue.

(** ** The inputs and their declared types *)

Lemma sync_shape_declared (H : Host) (s : SyncInitInput H) :
  In (sync_shape s) Decl.sync_shapes
  /\ shape (as_init_input s) = sync_shape s.
Proof. destruct s; simpl; auto. Qed.

Lemma shape_declared (H : Host) (i : InitInput H) :
  In (shape i) Decl.async_shapes.
Proof. destruct i; simpl; tauto. Qed.

(** ** Running a promise *)

Lemma run_settled (H : Host) (n : nat) (t : task H) :
  settled t = true -> run H n t = t.
Proof.
  induction n as [ | n IH]; simpl; intros Ht; [reflexivity | ].
  destruct t; try discriminate; simpl; apply IH; reflexivity.
Qed.

Lemma run_plus (H : Host) (n m : nat) (t : task H) :
  run H (n + m) t = run H m (run H n t).
Proof.
  revert t; induction n as [ | n IH]; simpl; intros t; [reflexivity | apply IH].
Qed.

(** A settled promise stays as it is. *)
Lemma run_stays (H : Host) (n : nat) (t t' : task H) :
  run H n t = t' -> settled t' = true ->
  forall k, n <= k -> run H k t = t'.
Proof.
  intros Hn Ht k Hk. replace k with (n + (k - n)) by lia.
  rewrite run_plus, Hn. apply run_settled. exact Ht.
Qed.

(** From the bytes on, the promise goes the way of the synchronous call. *)
Lemma run_compiling (H : Host) (b : bytes) :
  run H 2 (Compiling b) = promise_of (initSync H (SyncBufferSource b)).
Proof.
  simpl. unfold instantiate_module.
  destruct (compile H b) as [m | ]; simpl; [ | reflexivity].
  destruct (instantiate H m); reflexivity.
Qed.

Lemma run_instantiating (H : Host) (m : WasmModule H) :
  run H 1 (Instantiating m) = promise_of (initSync H (SyncModule m)).
Proof.
  simpl. unfold instantiate_module. destruct (instantiate H m); reflexivity.
Qed.

Lemma promise_of_settled (H : Host) (o : outcome H) :
  settled (promise_of o) = true.
Proof. destruct o; reflexivity. Qed.

(** Four turns settle the promise of any input that is there. *)
Lemma run_dispatch_bytes (H : Host) (i : InitInput H) (b : bytes) :
  source_bytes H i = Some b ->
  run H 3 (dispatch i) = promise_of (initSync H (SyncBufferSource b)).
Proof.
  intros Hb.
  destruct i as [r | u | r | b' | m]; simpl in Hb; try discriminate.
  - destruct (fetch H r) as [resp | ] eqn:Hf; [ | discriminate].
    injection Hb as <-. change (run H 3 (dispatch (OfRequestInfo r)))
      with (run H 2 (step H (Requesting r))).
    simpl step. rewrite Hf. apply run_compiling.
  - destruct (fetch H u) as [resp | ] eqn:Hf; [ | discriminate].
    injection Hb as <-. change (run H 3 (dispatch (OfURL u)))
      with (run H 2 (step H (Requesting u))).
    simpl step. rewrite Hf. apply run_compiling.
  - injection Hb as <-.
    apply (run_stays H 2); [apply run_compiling | apply promise_of_settled | lia].
  - injection Hb as <-.
    apply (run_stays H 2); [apply run_compiling | apply promise_of_settled | lia].
Qed.

Lemma run_dispatch_module (H : Host) (m : WasmModule H) :
  run H 3 (dispatch (OfModule m)) = promise_of (initSync H (SyncModule m)).
Proof.
  apply (run_stays H 1);
    [apply run_instantiating | apply promise_of_settled | lia].
Qed.

Lemma run_dispatch_unreachable (H : Host) (i : InitInput H) (loc : string) :
  location i = Some loc -> fetch H loc = None ->
  run H 3 (dispatch i) = Rejected FetchFailed.
Proof.
  intros Hl Hf.
  destruct i as [r | u | r | b | m]; simpl in Hl; try discriminate;
    injection Hl as ->; simpl; rewrite Hf; reflexivity.
Qed.

(** Once the input is there, what three turns make of it is what the
    promise of the initializer shows from the fourth turn on. *)
Lemma settles_by_four
  (H : Host) (arg : option (InitArg H)) (i : InitInput H) (t : task H) :
  input_of H arg = Some i ->
  run H 3 (dispatch i) = t -> settled t = true ->
  forall k, 4 <= k -> run H k (__wbg_init H arg) = t.
Proof.
  intros Hi Ht Hs k Hk.
  destruct arg as [[j | [j | | ]] | ]; simpl in Hi; try discriminate;
    injection Hi as <-.
  - apply (run_stays H 3); [exact Ht | exact Hs | lia].
  - apply (run_stays H 4); [exact Ht | exact Hs | lia].
  - apply (run_stays H 3); [exact Ht | exact Hs | lia].
Qed.

(** A promise does not change its mind. *)
Lemma never_both (H : Host) (t : task H) (n k : nat) (e : InitError)
  (h : Handle H) :
  (forall j, n <= j -> run H j t = Rejected e) -> run H k t <> Fulfilled h.
Proof.
  intros Hr Hk.
  assert (E : run H (Nat.max n k) t = Fulfilled h)
    by (apply (run_stays H k); [exact Hk | reflexivity | lia]).
  rewrite Hr in E by lia. discriminate.
Qed.

(** A pending input that never settles leaves the promise pending. *)
Lemma pending_input_hangs (H : Host) (k : nat) :
  run H k (__wbg_init H (Some (Promised NeverSettles)))
  = AwaitingInput NeverSettles.
Proof. induction k as [ | k IH]; [reflexivity | exact IH]. Qed.

(** ** The claims about the loader *)

(** C4: on a byte sequence that is not a valid compiled module,
    [initSync] throws, at the compilation that precedes instantiation,
    and returns no handle. *)
Theorem initSync_fails_on_malformed_bytes (H : Host) (b : bytes) :
  compile H b = None ->
  initSync H (SyncBufferSource b) = Threw MalformedModule
  /\ forall h, initSync H (SyncBufferSource b) <> Returned h.
Proof.
  intros Hb. simpl. rewrite Hb. split; [reflexivity | discriminate].
Qed.

Lemma initSync_fails_on_malformed_bytes_witness :
  initSync demo_host (SyncBufferSource [Byte.x00; Byte.x61; Byte.x73])
  = Threw MalformedModule
  /\ forall h, initSync demo_host (SyncBufferSource [Byte.x00; Byte.x61; Byte.x73])
               <> Returned h.
Proof.
  apply (initSync_fails_on_malformed_bytes demo_host). reflexivity.
Defined.

(** C6: when the source of the asynchronous initializer is resolvable
    (the input is there, it stands for the bytes [b], and the synchronous
    path returns a handle from [b]), the promise is fulfilled after
    finitely many turns and stays so, with the handle the synchronous path
    returns from [b], hence with the same export surface; and the declared
    result of the default export is the promise of the declared result of
    [initSync], the interface [InitOutput]. *)
Theorem async_resolves_to_sync_surface
  (H : Host) (arg : option (InitArg H)) (i : InitInput H) (b : bytes)
  (hs : Handle H) :
  input_of H arg = Some i ->
  underlying H i b ->
  initSync H (SyncBufferSource b) = Returned hs ->
  (exists n, forall k, n <= k -> run H k (__wbg_init H arg) = Fulfilled hs)
  /\ Decl.ret Decl.__wbg_init = Decl.TPromise (Decl.ret Decl.initSync)
  /\ Decl.interface "InitOutput" = Some Decl.InitOutput.
Proof.
  intros Hi Hu Hs. split; [ | split; reflexivity].
  exists 4. apply (settles_by_four H arg i); [exact Hi | | reflexivity].
  destruct Hu as [Hb | (m & -> & Hc)].
  - rewrite (run_dispatch_bytes H i b Hb), Hs. reflexivity.
  - rewrite run_dispatch_module. simpl in Hs. rewrite Hc in Hs.
    simpl. rewrite Hs. reflexivity.
Qed.

Lemma async_resolves_to_sync_surface_witness :
  (exists n, forall k, n <= k ->
     run demo_host k (__wbg_init demo_host None)
     = Fulfilled (H := demo_host) (map Decl.fname Decl.InitOutput))
  /\ Decl.ret Decl.__wbg_init = Decl.TPromise (Decl.ret Decl.initSync)
  /\ Decl.interface "InitOutput" = Some Decl.InitOutput.
Proof.
  apply (async_resolves_to_sync_surface demo_host None
           (OfURL "executor_wasm_bg.wasm") wasm_header).
  - reflexivity.
  - left. reflexivity.
  - reflexivity.
Defined.

(** C7: when the source is unreachable or failing (the fetch fails, the
    bytes are malformed, instantiation fails, or the pending input is
    itself rejected), the promise of the asynchronous initializer is
    rejected with that failure after finitely many turns and stays
    rejected; it is never fulfilled; and the failure has no other way out,
    the declared result of the default export being a promise. *)
Theorem async_rejects_on_failing_source
  (H : Host) (arg : option (InitArg H)) (e : InitError) :
  unreachable_or_failing H arg e ->
  (exists n, forall k, n <= k -> run H k (__wbg_init H arg) = Rejected e)
  /\ (forall k h, run H k (__wbg_init H arg) <> Fulfilled h)
  /\ Decl.is_promise (Decl.ret Decl.__wbg_init) = true.
Proof.
  intros Hf.
  assert (Hr : forall k, 4 <= k -> run H k (__wbg_init H arg) = Rejected e).
  { destruct Hf as [(i & Hi & Hf) | [-> ->]].
    - apply (settles_by_four H arg i); [exact Hi | | reflexivity].
      destruct Hf as [loc Hl Hf | b Hb Hc | m Hm Hin].
      + apply (run_dispatch_unreachable H i loc); assumption.
      + rewrite (run_dispatch_bytes H i b Hb). simpl. rewrite Hc. reflexivity.
      + destruct (source_bytes H i) as [b | ] eqn:Hb.
        * rewrite (run_dispatch_bytes H i b Hb).
          assert (Hc : compile H b = Some m)
            by (destruct i; simpl in Hm, Hb; try discriminate;
                first [rewrite Hb in Hm; exact Hm
                      | injection Hb as <-; exact Hm]).
          simpl. rewrite Hc. unfold instantiate_module. rewrite Hin.
          reflexivity.
        * destruct i as [r | u | r | b | m']; simpl in Hm, Hb;
            try rewrite Hb in Hm; try discriminate.
          injection Hm as ->. rewrite run_dispatch_module. simpl.
          unfold instantiate_module. rewrite Hin. reflexivity.
    - intros k Hk. apply (run_stays H 1); [reflexivity | reflexivity | lia]. }
  split; [exists 4; exact Hr | ]. split; [ | reflexivity].
  intros k h. apply (never_both H _ 4 k e h). exact Hr.
Qed.

Lemma async_rejects_on_failing_source_witness :
  (exists n, forall k, n <= k ->
     run demo_host k
       (__wbg_init demo_host (Some (Direct (OfURL "missing.wasm"))))
     = Rejected FetchFailed)
  /\ (forall k h,
        run demo_host k
          (__wbg_init demo_host (Some (Direct (OfURL "missing.wasm"))))
        <> Fulfilled h)
  /\ Decl.is_promise (Decl.ret Decl.__wbg_init) = true.
Proof.
  apply (async_rejects_on_failing_source demo_host).
  left. exists (OfURL "missing.wasm"). split; [reflexivity | ].
  apply (fetch_failure demo_host _ "missing.wasm"); reflexivity.
Defined.

End GlueFacts.

Module DeclMore.

Import Decl DeclFacts.

(** ** Looking members up *)

Lemma field_type_Some (fs : list field) (n : string) (m : member_ty) :
  field_type fs n = Some m ->
  exists f, In f fs /\ fname f = n /\ ftype f = m.
Proof.
  induction fs as [ | g fs IH]; simpl; [discriminate | ].
  destruct (fname g =? n) eqn:E.
  - intros Hm. injection Hm as <-. apply String.eqb_eq in E.
    exists g. auto.
  - intros Hm. destruct (IH Hm) as (f & Hf & Hn & Ht). exists f. auto.
Qed.

Lemma field_type_In (fs : list field) :
  NoDup (map fname fs) ->
  forall f, In f fs -> field_type fs (fname f) = Some (ftype f).
Proof.
  induction fs as [ | g fs IH]; simpl; intros Hd f Hf; [destruct Hf | ].
  inversion Hd as [ | x l Hg Hd']; subst.
  destruct Hf as [-> | Hf].
  - rewrite String.eqb_refl. reflexivity.
  - destruct (fname g =? fname f) eqn:E.
    + apply String.eqb_eq in E. exfalso. apply Hg. rewrite E.
      apply in_map. exact Hf.
    + apply IH; assumption.
Qed.

Ltac differ H :=
  apply String.eqb_eq in H; vm_compute in H; discriminate H.

Lemma InitOutput_names_distinct : NoDup (map fname InitOutput).
Proof.
  simpl.
  repeat (constructor;
          [simpl; intros H;
           repeat (destruct H as [H | H]; [differ H | ]); exact H | ]).
  constructor.
Qed.

(** X1: the members of [InitOutput] have pairwise distinct names, so a
    lookup by name finds a member exactly when the interface declares it,
    and then at its declared type; a name that is not declared finds
    nothing. *)
Theorem handle_member_lookup :
  NoDup (map fname InitOutput)
  /\ (forall n m,
        field_type InitOutput n = Some m
        <-> exists f, In f InitOutput /\ fname f = n /\ ftype f = m)
  /\ (forall n, field_type InitOutput n = None
                <-> ~ In n (map fname InitOutput)).
Proof.
  split; [exact InitOutput_names_distinct | ].
  assert (Hfind : forall n m,
             field_type InitOutput n = Some m
             <-> exists f, In f InitOutput /\ fname f = n /\ ftype f = m).
  { intros n m. split; [apply field_type_Some | ].
    intros (f & Hf & <- & <-).
    apply field_type_In; [exact InitOutput_names_distinct | exact Hf]. }
  split; [exact Hfind | ].
  intros n. split.
  - intros Hn Hin. apply in_map_iff in Hin as (f & <- & Hf).
    rewrite (field_type_In InitOutput InitOutput_names_distinct f Hf) in Hn.
    discriminate.
  - intros Hn. destruct (field_type InitOutput n) as [m | ] eqn:E;
      [ | reflexivity].
    exfalso. apply Hn. apply Hfind in E as (f & Hf & <- & _).
    apply in_map. exact Hf.
Qed.

Lemma handle_member_lookup_witness :
  field_type InitOutput "__wbindgen_exn_store"
  = Some (MFun (Sig [num "a"] TVoid)).
Proof.
  apply (proj1 (proj2 handle_member_lookup)).
  exists (Field "__wbindgen_exn_store" true (MFun (Sig [num "a"] TVoid))).
  split; [simpl; tauto | split; reflexivity].
Defined.

(** ** Calling the members of the handle *)

Lemma number_accepted (a : ty) :
  (forall m, In m (members (resolve a)) -> m = TNumber) ->
  subtype a TNumber = true.
Proof.
  intros Hm. unfold subtype. change (resolve TNumber) with TNumber.
  apply sub_complete.
  - intros m Hin. rewrite (Hm m Hin). reflexivity.
  - intros m Hin. rewrite (Hm m Hin). left. reflexivity.
Qed.

(** Parameters that are all required take as many arguments as there are
    parameters. *)
Lemma check_args_arity (ps : list param) :
  forallb required_number ps = true ->
  forall args, check_args ps args = true -> length args = length ps.
Proof.
  induction ps as [ | p ps IH]; simpl; intros Hps args Hc.
  - destruct args; [reflexivity | discriminate].
  - apply andb_true_iff in Hps as [Hp Hps].
    unfold required_number in Hp.
    destruct p as [n o t]; simpl in *. destruct t; try discriminate.
    apply negb_true_iff in Hp. subst o.
    destruct args as [ | a args]; [discriminate | ].
    apply andb_true_iff in Hc as [_ Hc]. simpl. f_equal. apply IH; assumption.
Qed.

(** Parameters that are all numbers accept as many numbers. *)
Lemma check_args_numbers (ps : list param) :
  forallb required_number ps = true ->
  forall args,
    length args = length ps ->
    (forall a, In a args -> subtype a TNumber = true) ->
    check_args ps args = true.
Proof.
  induction ps as [ | p ps IH]; simpl; intros Hps args Hl Hall.
  - destruct args; [reflexivity | discriminate].
  - apply andb_true_iff in Hps as [Hp Hps].
    unfold required_number in Hp.
    destruct p as [n o t]; simpl in *. destruct t; try discriminate.
    destruct args as [ | a args]; [discriminate | ].
    apply andb_true_iff. split; [apply Hall; left; reflexivity | ].
    apply IH; [exact Hps | simpl in Hl; congruence | ].
    intros x Hx. apply Hall. right. exact Hx.
Qed.

Lemma InitOutput_functions_numeric (f : field) (s : fn_sig) :
  In f InitOutput -> ftype f = MFun s -> numeric_sig s = true.
Proof.
  intros Hf Hs. simpl in Hf.
  repeat (destruct Hf as [<- | Hf];
          [simpl in Hs; first [discriminate Hs
                              | injection Hs as <-; reflexivity] | ]).
  destruct Hf.
Qed.

(** X2: every function member of [InitOutput] is declared over numbers
    alone: each parameter is a required [number] and the result is a
    number or nothing.  A call of it type-checks only with as many
    arguments as it declares parameters, and it does type-check when it
    is given that many numbers. *)
Theorem handle_function_calls (n : string) (s : fn_sig) :
  field_type InitOutput n = Some (MFun s) ->
  (ret s = TNumber \/ ret s = TVoid)
  /\ (forall p, In p (params s) -> ptype p = TNumber /\ optional p = false)
  /\ (forall args r, call_type s args = Some r ->
        r = ret s /\ length args = length (params s))
  /\ (forall args,
        length args = length (params s) ->
        (forall a m, In a args -> In m (members (resolve a)) -> m = TNumber) ->
        call_type s args = Some (ret s)).
Proof.
  intros Hn. apply field_type_Some in Hn as (f & Hf & _ & Hs).
  pose proof (InitOutput_functions_numeric f s Hf Hs) as Hnum.
  unfold numeric_sig in Hnum. apply andb_true_iff in Hnum as [Hps Hr].
  split; [destruct (ret s); try discriminate; auto | ]. split.
  - intros p Hp. rewrite forallb_forall in Hps. specialize (Hps p Hp).
    unfold required_number in Hps.
    destruct (ptype p); try discriminate.
    apply negb_true_iff in Hps. auto.
  - unfold call_type. split.
    + intros args r Hc.
      destruct (check_args (params s) args) eqn:E; [ | discriminate].
      injection Hc as <-. split; [reflexivity | ].
      apply check_args_arity; assumption.
    + intros args Hl Hall.
      rewrite check_args_numbers; [reflexivity | exact Hps | exact Hl | ].
      intros a Ha. apply number_accepted. intros m. apply Hall. exact Ha.
Qed.

Lemma handle_function_calls_witness :
  call_type (Sig [num "a"; num "b"] TNumber) [TNumber; TNumber]
  = Some TNumber.
Proof.
  apply (proj2 (proj2 (proj2
           (handle_function_calls "__wbindgen_malloc"
              (Sig [num "a"; num "b"] TNumber) eq_refl)))).
  - reflexivity.
  - intros a m [<- | [<- | []]] [<- | []]; reflexivity.
Defined.

(** ** The aliases of the file *)





End DeclMore.
